(** * RAG workflow with reranking: steps, shared context and run loop

    Embedding of [docs/docs/examples/workflow/rag.ipynb]: the four steps of
    [RAGWorkflow] (ingest, retrieve, rerank, synthesize), the two user events,
    the per-run key/value store the steps share, and the event loop that
    drives a run from a Start event to a Stop event.

    The document loader, the index builder, the retriever, the reranker and
    the synthesizer are external services.  They are parameters of the
    development: each is a function returning [None] when the call raises. *)

From stdpp Require Import gmap strings list fin_maps.
From Stdlib Require Import ZArith Lia.

Set Warnings "-register-all".

Open Scope Z_scope.
Open Scope string_scope.

(** ** External objects *)

(** The objects the external services hand back; the notebook never looks
    inside them. *)
Class Objects : Type := {
  Document : Type;   (* what [SimpleDirectoryReader.load_data] returns *)
  Index : Type;      (* [VectorStoreIndex] *)
  Node : Type;       (* [NodeWithScore] *)
  Response : Type    (* the streaming response of the synthesizer *)
}.

(** ** Exceptions *)

Inductive exn : Type :=
| ServiceError (service : string)
| AttributeError (attr : string)
| TypeError.

(** What a call comes back with: a value, or an exception. *)
Inductive outcome (A : Type) : Type :=
| Returned (a : A)
| Raised (e : exn).
Arguments Returned {A} a.
Arguments Raised {A} e.

(** ** Values, events and the shared context *)

Section Workflow.

Context {Obj : Objects}.

(** A Python value, as far as the steps inspect it. *)
Inductive value : Type :=
| VNone
| VBool (b : bool)
| VInt (z : Z)
| VStr (s : string)
| VList (l : list value)
| VIndex (i : Index)
| VResponse (r : Response).

(** Python truth value: what [if not v] tests. *)
Definition truthy (v : value) : bool :=
  match v with
  | VNone => false
  | VBool b => b
  | VInt z => negb (Z.eqb z 0)
  | VStr s => negb (String.eqb s "")
  | VList l => match l with [] => false | _ :: _ => true end
  | VIndex _ => true
  | VResponse _ => true
  end.

Definition is_none (v : value) : bool :=
  match v with VNone => true | _ => false end.

(** [RetrieverEvent] and [RerankEvent] carry [nodes: list[NodeWithScore]];
    [StartEvent] carries the keyword arguments of [run], [StopEvent] the
    result. *)
Inductive event : Type :=
| StartEvent (data : gmap string value)
| StopEvent (result : value)
| RetrieverEvent (nodes : list Node)
| RerankEvent (nodes : list Node).

Inductive kind : Type := KStart | KStop | KRetriever | KRerank.

Definition kind_of (ev : event) : kind :=
  match ev with
  | StartEvent _ => KStart
  | StopEvent _ => KStop
  | RetrieverEvent _ => KRetriever
  | RerankEvent _ => KRerank
  end.

Definition kind_eqb (a b : kind) : bool :=
  match a, b with
  | KStart, KStart | KStop, KStop
  | KRetriever, KRetriever | KRerank, KRerank => true
  | _, _ => false
  end.

(** Modelled from the spec: [Event.get] belongs to the workflow library,
    not to the notebook.  A Start event carries an open-ended mapping of
    field name to value (section 3), and a step finds out that a field is
    absent by reading it: [ev.get(key)] is the field, or [None] when the
    event has no such field. *)
Definition ev_get (data : gmap string value) (key : string) : value :=
  default VNone (data !! key).

(** What a step writes to standard output, one constructor per [print]. *)
Inductive line : Type :=
| PrintQueryDb (query : value)     (* f"Query the database with: {query}" *)
| PrintIndexEmpty                  (* "Index is empty, load some ..." *)
| PrintRetrieved (n : nat)         (* f"Retrieved {len(nodes)} nodes." *)
| PrintValue (v : value)           (* print(await ctx.store.get(...)) *)
| PrintReranked (n : nat).         (* f"Reranked nodes to {len(new_nodes)}" *)

(** The state a step runs in: the store behind [ctx.store] and the output
    written so far. *)
Record Context : Type := mkContext {
  store : gmap string value;
  stdout : list line
}.

Definition new_context : Context := mkContext ∅ [].

(** ** The step monad: state passing over [Context], with exceptions *)

Definition M (A : Type) : Type := Context -> Context * outcome A.

Definition ret {A} (a : A) : M A := fun c => (c, Returned a).

Definition raise {A} (e : exn) : M A := fun c => (c, Raised e).

Definition bind {A B} (m : M A) (k : A -> M B) : M B :=
  fun c =>
    match m c with
    | (c', Returned a) => k a c'
    | (c', Raised e) => (c', Raised e)
    end.

Notation "'let*' x ':=' m 'in' k" := (bind m (fun x => k))
  (at level 10, x name, m at level 100, k at level 200, only parsing).
Notation "m ';;;' k" := (bind m (fun _ => k))
  (at level 100, k at level 200, right associativity, only parsing).

Definition print (l : line) : M unit :=
  fun c => (mkContext (store c) (stdout c ++ [l]), Returned tt).

(** A call of an external service; [None] stands for the call raising. *)
Definition call {A} (service : string) (r : option A) : M A :=
  match r with
  | Some a => ret a
  | None => raise (ServiceError service)
  end.

(** ** SharedContext *)

(** Modelled from the spec: the store behind [ctx.store] (class [Context]
    of the workflow library) is not part of the notebook.  Section 4.1:
    [set(key, value)] stores the value under the key, overwriting any
    prior one; [get(key, default)] returns the stored value or the
    supplied default if the key is absent.  The store is a mapping from
    string keys to values, fresh for every run. *)
Definition store_set (k : string) (v : value) (m : gmap string value)
  : gmap string value := <[k := v]> m.

(** Modelled from the spec: [get(key, default)] of section 4.1, see
    [store_set]. *)
Definition store_get (k : string) (d : value) (m : gmap string value)
  : value := default d (m !! k).

(** [await ctx.store.set(k, v)] *)
Definition ctx_set (k : string) (v : value) : M unit :=
  fun c => (mkContext (store_set k v (store c)) (stdout c), Returned tt).

(** [await ctx.store.get(k, default=d)] *)
Definition ctx_get (k : string) (d : value) : M value :=
  fun c => (c, Returned (store_get k d (store c))).

(** Operations other steps may run on the store between a [set] and the
    [get] that follows it.  The store is linearizable, so what concurrent
    steps do is a sequence of such operations. *)
Inductive store_op : Type :=
| OpSet (k : string) (v : value)
| OpGet (k : string) (d : value).

Definition op_key (o : store_op) : string :=
  match o with OpSet k _ => k | OpGet k _ => k end.

Definition apply_op (m : gmap string value) (o : store_op)
  : gmap string value :=
  match o with
  | OpSet k v => store_set k v m
  | OpGet _ _ => m
  end.

Definition apply_ops (ops : list store_op) (m : gmap string value)
  : gmap string value := fold_left apply_op ops m.

(** ** External services *)

(** Each service returns [None] when the call raises.  The constants the
    notebook configures a service with are passed along. *)
Class Services : Type := {
  (* SimpleDirectoryReader(dirname).load_data() *)
  load_data : value -> option (list Document);
  (* VectorStoreIndex.from_documents(documents=..., embed_model=
     OpenAIEmbedding(model_name=...)) *)
  from_documents : list Document -> string -> option Index;
  (* index.as_retriever(similarity_top_k=...).aretrieve(query) *)
  aretrieve : Index -> Z -> value -> option (list Node);
  (* LLMRerank(choice_batch_size=..., top_n=..., llm=OpenAI(model=...))
       .postprocess_nodes(nodes, query_str=...) *)
  postprocess_nodes :
    Z -> Z -> string -> list Node -> value -> option (list Node);
  (* CompactAndRefine(llm=OpenAI(model=...), streaming=True, verbose=True)
       .asynthesize(query, nodes=...) *)
  asynthesize : string -> value -> list Node -> option Response
}.

Context {Sv : Services}.

(** ** The steps of [RAGWorkflow] *)

(** Entry point to ingest a document, triggered by a StartEvent with
    [dirname]. *)
Definition ingest (ev : gmap string value) : M (option event) :=
  let dirname := ev_get ev "dirname" in
  if negb (truthy dirname) then ret None
  else
    let* documents := call "load_data" (load_data dirname) in
    let* index :=
      call "from_documents"
           (from_documents documents "text-embedding-3-small") in
    ret (Some (StopEvent (VIndex index))).

(** Entry point for RAG, triggered by a StartEvent with [query]. *)
Definition retrieve (ev : gmap string value) : M (option event) :=
  let query := ev_get ev "query" in
  let index := ev_get ev "index" in
  if negb (truthy query) then ret None
  else
    print (PrintQueryDb query) ;;;
    (* store the query in the global context *)
    ctx_set "query" query ;;;
    if is_none index then
      print PrintIndexEmpty ;;;
      ret None
    else
      match index with
      | VIndex i =>
          let* nodes := call "aretrieve" (aretrieve i 2 query) in
          print (PrintRetrieved (length nodes)) ;;;
          ret (Some (RetrieverEvent nodes))
      | _ => raise (AttributeError "as_retriever")
      end.

Definition rerank (nodes : list Node) : M (option event) :=
  let* q := ctx_get "query" VNone in
  print (PrintValue q) ;;;
  let* query_str := ctx_get "query" VNone in
  let* new_nodes :=
    call "postprocess_nodes"
         (postprocess_nodes 5 3 "gpt-4o-mini" nodes query_str) in
  print (PrintReranked (length new_nodes)) ;;;
  ret (Some (RerankEvent new_nodes)).

(** Return a streaming response using reranked nodes. *)
Definition synthesize (nodes : list Node) : M (option event) :=
  let* query := ctx_get "query" VNone in
  let* response :=
    call "asynthesize" (asynthesize "gpt-4o-mini" query nodes) in
  ret (Some (StopEvent (VResponse response))).

(** ** Step declarations *)

(** A step as [@step] registers it: its name, the event kind of its [ev]
    parameter, the kinds of its return annotation, whether the annotation
    allows [None], and its body. *)
Record step : Type := mkStep {
  step_name : string;
  accepts : kind;
  produces : list kind;
  may_return_none : bool;
  body : event -> M (option event)
}.

(** The run loop hands a step only events of the kind it accepts; the
    last branch of each body below is never reached by [dispatch]. *)
Definition ingest_step : step :=
  mkStep "ingest" KStart [KStop] true
    (fun ev => match ev with
               | StartEvent data => ingest data
               | _ => raise TypeError
               end).

Definition retrieve_step : step :=
  mkStep "retrieve" KStart [KRetriever] true
    (fun ev => match ev with
               | StartEvent data => retrieve data
               | _ => raise TypeError
               end).

Definition rerank_step : step :=
  mkStep "rerank" KRetriever [KRerank] false
    (fun ev => match ev with
               | RetrieverEvent nodes => rerank nodes
               | _ => raise TypeError
               end).

Definition synthesize_step : step :=
  mkStep "synthesize" KRerank [KStop] false
    (fun ev => match ev with
               | RerankEvent nodes => synthesize nodes
               | _ => raise TypeError
               end).

Definition RAGWorkflow : list step :=
  [ingest_step; retrieve_step; rerank_step; synthesize_step].

(** A return value agrees with the step's annotation. *)
Definition conforms (s : step) (o : outcome (option event)) : Prop :=
  match o with
  | Returned (Some ev) => In (kind_of ev) (produces s)
  | Returned None => may_return_none s = true
  | Raised _ => True
  end.

(** ** The run loop *)

Inductive run_error : Type :=
| GraphValidationError
| StepExecutionError (name : string) (cause : exn)
| NoTerminationError
| TimeoutError.

(** State of a run: [Created -> Running -> Completed | Failed]. *)
Inductive run_status : Type :=
| Running
| Completed (result : value)
| Failed (e : run_error).

(** One call of a step body: the step, the event it was given, the
    context it started in and what it returned. *)
Record invocation : Type := mkInvocation {
  inv_step : string;
  inv_event : event;
  inv_context : Context;
  inv_outcome : outcome (option event)
}.

Inductive round_result : Type :=
| Enqueue (evs : list event)
| Stop (result : value)
| Abort (e : run_error).

(** Modelled from the spec: the engine's dispatch of one event (class
    [Workflow] of the workflow library is not part of the notebook).
    Section 4.2, steps 2 to 4, and section 5: every step accepting the
    event's kind is invoked with the shared context and the event, and
    the invocations are joined before their outcomes are looked at; a
    returned event is enqueued, "no event" ends that branch, a failure
    aborts the run, and the first Stop event produced ends the run.  The
    steps are taken in declaration order, which stands for the engine's
    completion order: the first Stop event or failure in that order
    decides the round. *)
Fixpoint dispatch (ss : list step) (ev : event) (c : Context)
  : Context * list invocation * round_result :=
  match ss with
  | [] => (c, [], Enqueue [])
  | s :: ss' =>
      let '(c1, o) := body s ev c in
      let inv := mkInvocation (step_name s) ev c o in
      let '(c2, tr, res) := dispatch ss' ev c1 in
      (c2, inv :: tr,
       match o with
       | Raised e => Abort (StepExecutionError (step_name s) e)
       | Returned (Some (StopEvent v)) => Stop v
       | Returned r =>
           match res with
           | Enqueue evs => Enqueue (option_list r ++ evs)
           | _ => res
           end
       end)
  end.

Record run_record : Type := mkRun {
  status : run_status;
  final_context : Context;
  trace : list invocation
}.

Definition matching (w : list step) (ev : event) : list step :=
  List.filter (fun s => kind_eqb (accepts s) (kind_of ev)) w.

(** Modelled from the spec: the work queue of section 4.2, steps 1 and 5.
    An event is popped and dispatched; the events the round produced are
    appended to the queue; the run fails with [NoTerminationError] when
    the queue is empty and no Stop event was produced.  [fuel] bounds the
    number of dispatch rounds; a run that has used it up is still
    [Running]. *)
Fixpoint drive (fuel : nat) (w : list step) (c : Context)
         (queue : list event) : run_record :=
  match queue with
  | [] => mkRun (Failed NoTerminationError) c []
  | ev :: rest =>
      match fuel with
      | 0%nat => mkRun Running c []
      | S fuel' =>
          let '(c', tr, res) := dispatch (matching w ev) ev c in
          match res with
          | Stop v => mkRun (Completed v) c' tr
          | Abort e => mkRun (Failed e) c' tr
          | Enqueue evs =>
              let r := drive fuel' w c' (rest ++ evs) in
              mkRun (status r) (final_context r) (tr ++ trace r)
          end
      end
  end.

(** Modelled from the spec: [run(initialPayload)] of section 4.2 creates a
    fresh shared context, wraps the payload in a Start event and drives
    the dispatch. *)
Definition run (w : list step) (payload : gmap string value)
           (fuel : nat) : run_record :=
  drive fuel w new_context [StartEvent payload].

(** ** Vocabulary of the properties *)

(** The field is missing from the payload, or its value is falsy. *)
Definition missing_or_falsy (data : gmap string value) (key : string)
  : Prop :=
  match data !! key with
  | None => True
  | Some v => truthy v = false
  end.

(** The context [retrieve] leaves behind once it got past its first
    test: the query is stored, and the given lines are printed. *)
Definition after_retrieve (c : Context) (q : value) (ls : list line)
  : Context :=
  mkContext (store_set "query" q (store c))
            (stdout c ++ PrintQueryDb q :: ls).

(** The invocation returned a Stop event with payload [v]. *)
Definition produced_stop (inv : invocation) (v : value) : Prop :=
  inv_outcome inv = Returned (Some (StopEvent v)).

(** The outcome decides a dispatch round: a Stop event or a failure. *)
Definition terminal (o : outcome (option event)) : Prop :=
  match o with
  | Raised _ => True
  | Returned (Some (StopEvent _)) => True
  | Returned _ => False
  end.

(** Every invocation of the run is one of the step called [name]. *)
Definition invokes_only (name : string) (r : run_record) : Prop :=
  Forall (fun inv => inv_step inv = name) (trace r).

(** The invocation is one of a step of [w], and what it returned agrees
    with that step's annotation. *)
Definition invocation_conforms (w : list step) (inv : invocation) : Prop :=
  exists s, s ∈ w /\ step_name s = inv_step inv /\
            conforms s (inv_outcome inv).

(** If the invocation is one of [rerank], it starts in a context whose
    [query] key holds the query passed to [run]. *)
Definition sees_query (data : gmap string value) (inv : invocation)
  : Prop :=
  inv_step inv = "rerank" ->
  store (inv_context inv) !! "query" = Some (ev_get data "query").

(** The call raised. *)
Definition raises {A} (r : Context * outcome A) : Prop :=
  exists e, r.2 = Raised e.

(** The pipeline the notebook designs its workflow after ("Designing the
    Workflow"): a payload asking for ingestion is indexed; otherwise a
    query is answered by retrieving from the index, reranking what was
    retrieved and synthesizing a response from the reranked nodes.  A
    failing service fails the pipeline in the step that called it. *)
Definition pipeline (data : gmap string value) : run_status :=
  let query := ev_get data "query" in
  if truthy (ev_get data "dirname") then
    match load_data (ev_get data "dirname") with
    | None => Failed (StepExecutionError "ingest" (ServiceError "load_data"))
    | Some docs =>
        match from_documents docs "text-embedding-3-small" with
        | None =>
            Failed (StepExecutionError "ingest"
                      (ServiceError "from_documents"))
        | Some idx => Completed (VIndex idx)
        end
    end
  else if truthy query then
    match ev_get data "index" with
    | VNone => Failed NoTerminationError
    | VIndex i =>
        match aretrieve i 2 query with
        | None =>
            Failed (StepExecutionError "retrieve" (ServiceError "aretrieve"))
        | Some nodes =>
            match postprocess_nodes 5 3 "gpt-4o-mini" nodes query with
            | None =>
                Failed (StepExecutionError "rerank"
                          (ServiceError "postprocess_nodes"))
            | Some new_nodes =>
                match asynthesize "gpt-4o-mini" query new_nodes with
                | None =>
                    Failed (StepExecutionError "synthesize"
                              (ServiceError "asynthesize"))
                | Some response => Completed (VResponse response)
                end
            end
        end
    | _ =>
        Failed (StepExecutionError "retrieve" (AttributeError "as_retriever"))
    end
  else Failed NoTerminationError.

(** The last two code cells of the notebook:
    [index = await w.run(dirname=...)], then
    [result = await w.run(query=..., index=index)].  The second cell runs
    on the result of the first; a failure of the first run is the
    failure of the whole. *)
Definition notebook (dirname query : value) (fuel : nat) : run_status :=
  match status (run RAGWorkflow {[ "dirname" := dirname ]} fuel) with
  | Completed index =>
      status (run RAGWorkflow
                (<[ "query" := query ]> {[ "index" := index ]}) fuel)
  | st => st
  end.

(** Two payloads agree on the fields the entry steps read. *)
Definition same_fields (data data' : gmap string value) : Prop :=
  ev_get data "dirname" = ev_get data' "dirname" /\
  ev_get data "query" = ev_get data' "query" /\
  ev_get data "index" = ev_get data' "index".

End Workflow.

(** ** A concrete set of services *)

(** Documents and responses are texts, an index is the list of its
    documents, a node is a text with its score. *)
#[export] Instance demo_objects : Objects := {|
  Document := string;
  Index := list string;
  Node := string * Z;
  Response := string
|}.

Definition demo_load_data (dirname : value) : option (list string) :=
  match dirname with
  | VStr "data" => Some ["pretraining"; "fine-tuning"; "safety"]
  | _ => None
  end.

(** The directory [data] holds three documents; the index keeps the
    documents; retrieval takes the first [similarity_top_k] of them,
    reranking the first [top_n] nodes; the response joins the texts. *)
#[export] Instance demo_services : Services := {|
  load_data := demo_load_data;
  from_documents := fun docs _ => Some docs;
  aretrieve := fun idx k _ =>
    Some (take (Z.to_nat k) (map (fun d => (d, 1)) idx));
  postprocess_nodes := fun _ top_n _ nodes _ =>
    Some (take (Z.to_nat top_n) nodes);
  asynthesize := fun _ _ nodes => Some (String.concat " " (map fst nodes))
|}.

Definition demo_index : @Index demo_objects :=
  ["pretraining"; "fine-tuning"; "safety"].

Definition demo_query : value := VStr "How was Llama2 trained?".

Definition demo_nodes : list (@Node demo_objects) :=
  [("pretraining", 1); ("fine-tuning", 1)].

Definition demo_response : @Response demo_objects :=
  "pretraining fine-tuning".

(** [w.run(dirname="data")] *)
Definition ingest_payload : gmap string value :=
  {[ "dirname" := VStr "data" ]}.

(** [w.run(query="How was Llama2 trained?", index=index)] *)
Definition query_payload : gmap string value :=
  <[ "query" := demo_query ]> {[ "index" := VIndex demo_index ]}.

Definition no_field_payload : gmap string value :=
  {[ "top_k" := VInt 2 ]}.

(** The query payload with a keyword no step reads. *)
Definition query_payload_top_k : gmap string value :=
  <[ "top_k" := VInt 2 ]> query_payload.

(** A payload that asks for ingestion and for an answer at once. *)
Definition both_payload : gmap string value :=
  <[ "dirname" := VStr "data" ]> query_payload.

(** A query with an index that is not an index object. *)
Definition untyped_index_payload : gmap string value :=
  <[ "query" := demo_query ]> {[ "index" := VInt 0 ]}.

(** An empty query with an index. *)
Definition empty_query_payload : gmap string value :=
  <[ "query" := VStr "" ]> {[ "index" := VIndex demo_index ]}.

(** An empty directory name. *)
Definition empty_dirname_payload : gmap string value :=
  {[ "dirname" := VStr "" ]}.

(** The same services with a synthesizer that answers with an empty
    response. *)
Definition quiet_services : Services := {|
  load_data := demo_load_data;
  from_documents := fun docs _ => Some docs;
  aretrieve := fun idx k _ =>
    Some (take (Z.to_nat k) (map (fun d => (d, 1)) idx));
  postprocess_nodes := fun _ top_n _ nodes _ =>
    Some (take (Z.to_nat top_n) nodes);
  asynthesize := fun _ _ _ => Some ""
|}.

Definition empty_response : @Response demo_objects := "".

(** The invocation of [ingest] in the runs on [ingest_payload] and on
    [both_payload]. *)
Definition demo_ingest_invocation (data : gmap string value) : invocation :=
  mkInvocation "ingest" (StartEvent data) new_context
    (Returned (Some (StopEvent (VIndex demo_index)))).

(** The invocation of [rerank] in the run on [query_payload]. *)
Definition demo_rerank_invocation : invocation :=
  mkInvocation "rerank" (RetrieverEvent demo_nodes)
    (after_retrieve new_context demo_query [PrintRetrieved 2])
    (Returned (Some (RerankEvent demo_nodes))).

(** ** Properties of the shared context *)

Section StoreProperties.

Context {Obj : Objects}.

Lemma store_get_set_eq (k : string) (v d : value) (m : gmap string value) :
  store_get k d (store_set k v m) = v.
Proof. unfold store_get, store_set. by rewrite lookup_insert_eq. Qed.

Lemma store_get_set_ne (k k' : string) (v d : value)
      (m : gmap string value) :
  k ≠ k' -> store_get k' d (store_set k v m) = store_get k' d m.
Proof.
  intros Hne. unfold store_get, store_set. by rewrite lookup_insert_ne.
Qed.

(** An operation on another key does not change what is stored under
    [k]. *)
Lemma apply_op_other (k : string) (o : store_op) (m : gmap string value) :
  op_key o ≠ k -> apply_op m o !! k = m !! k.
Proof.
  destruct o as [k' v'|k' d']; simpl; intros Hne; [|done].
  unfold store_set. by rewrite lookup_insert_ne.
Qed.

Lemma apply_ops_other (k : string) (ops : list store_op) :
  Forall (fun o => op_key o ≠ k) ops ->
  forall m : gmap string value, apply_ops ops m !! k = m !! k.
Proof.
  unfold apply_ops.
  induction 1 as [|o ops Ho _ IH]; intros m; simpl; [done|].
  rewrite IH. by apply apply_op_other.
Qed.

(** C5: [set(k, v)] followed by [get(k, d)] returns [v], whatever the
    store held before and whatever operations on other keys take effect
    between the two; in a step, [ctx.store.set] directly followed by
    [ctx.store.get] on the same key returns the value just stored. *)
Theorem set_then_get (k : string) (v d : value) (ops : list store_op)
        (m : gmap string value) (c : Context) :
  Forall (fun o => op_key o ≠ k) ops ->
  store_get k d (apply_ops ops (store_set k v m)) = v /\
  (bind (ctx_set k v) (fun _ => ctx_get k d) c).2 = Returned v.
Proof.
  intros Hops. split.
  - unfold store_get.
    rewrite (apply_ops_other k ops Hops).
    unfold store_set. by rewrite lookup_insert_eq.
  - unfold bind, ctx_set, ctx_get. simpl. by rewrite store_get_set_eq.
Qed.

(** C6: [get(key, default)] returns the stored value when the key is
    present and the supplied default when it is absent; as a step
    operation it always returns (it never raises) and leaves the context
    as it was. *)
Theorem get_stored_or_default (k : string) (d : value) (c : Context) :
  ctx_get k d c = (c, Returned (store_get k d (store c))) /\
  store_get k d (store c) =
    match store c !! k with Some v => v | None => d end.
Proof.
  split; [reflexivity|].
  unfold store_get. by destruct (store c !! k).
Qed.

End StoreProperties.

(** ** Properties of the steps *)

Arguments ingest : simpl never.
Arguments retrieve : simpl never.
Arguments rerank : simpl never.
Arguments synthesize : simpl never.

Section StepProperties.

Context {Obj : Objects} {Sv : Services}.

Lemma missing_or_falsy_get (data : gmap string value) (key : string) :
  missing_or_falsy data key <-> truthy (ev_get data key) = false.
Proof.
  unfold missing_or_falsy, ev_get. by destruct (data !! key).
Qed.

Lemma ingest_falsy (data : gmap string value) (c : Context) :
  truthy (ev_get data "dirname") = false ->
  ingest data c = (c, Returned None).
Proof. intros H. unfold ingest. by rewrite H. Qed.

Lemma retrieve_falsy (data : gmap string value) (c : Context) :
  truthy (ev_get data "query") = false ->
  retrieve data c = (c, Returned None).
Proof. intros H. unfold retrieve. by rewrite H. Qed.

Lemma ingest_truthy (data : gmap string value) (c : Context) :
  truthy (ev_get data "dirname") = true ->
  ingest data c =
    match load_data (ev_get data "dirname") with
    | None => (c, Raised (ServiceError "load_data"))
    | Some docs =>
        match from_documents docs "text-embedding-3-small" with
        | None => (c, Raised (ServiceError "from_documents"))
        | Some idx => (c, Returned (Some (StopEvent (VIndex idx))))
        end
    end.
Proof.
  intros H. unfold ingest. rewrite H. simpl.
  unfold bind, call.
  destruct (load_data _) as [docs|]; [|done].
  simpl. by destruct (from_documents _ _).
Qed.

Lemma retrieve_truthy (data : gmap string value) (c : Context) :
  truthy (ev_get data "query") = true ->
  retrieve data c =
    let q := ev_get data "query" in
    match ev_get data "index" with
    | VNone => (after_retrieve c q [PrintIndexEmpty], Returned None)
    | VIndex i =>
        match aretrieve i 2 q with
        | None => (after_retrieve c q [], Raised (ServiceError "aretrieve"))
        | Some nodes =>
            (after_retrieve c q [PrintRetrieved (length nodes)],
             Returned (Some (RetrieverEvent nodes)))
        end
    | _ => (after_retrieve c q [], Raised (AttributeError "as_retriever"))
    end.
Proof.
  intros H. unfold retrieve. rewrite H. simpl.
  unfold after_retrieve, bind, print, ctx_set, call, ret, raise. simpl.
  destruct (ev_get data "index") as [| | | | |i|]; simpl;
    rewrite <- ?app_assoc; simpl; try done.
  destruct (aretrieve i 2 _) as [nodes|]; simpl;
    rewrite <- ?app_assoc; simpl; done.
Qed.

Lemma rerank_eq (nodes : list Node) (c : Context) :
  rerank nodes c =
    let q := store_get "query" VNone (store c) in
    let c1 := mkContext (store c) (stdout c ++ [PrintValue q]) in
    match postprocess_nodes 5 3 "gpt-4o-mini" nodes q with
    | None => (c1, Raised (ServiceError "postprocess_nodes"))
    | Some new_nodes =>
        (mkContext (store c)
                   (stdout c ++ [PrintValue q;
                                 PrintReranked (length new_nodes)]),
         Returned (Some (RerankEvent new_nodes)))
    end.
Proof.
  unfold rerank, bind, print, ctx_get, call, ret, raise. simpl.
  destruct (postprocess_nodes _ _ _ _ _); simpl;
    rewrite <- ?app_assoc; done.
Qed.

Lemma synthesize_eq (nodes : list Node) (c : Context) :
  synthesize nodes c =
    let q := store_get "query" VNone (store c) in
    match asynthesize "gpt-4o-mini" q nodes with
    | None => (c, Raised (ServiceError "asynthesize"))
    | Some response =>
        (c, Returned (Some (StopEvent (VResponse response))))
    end.
Proof.
  unfold synthesize, bind, ctx_get, call, ret, raise. simpl.
  by destruct (asynthesize _ _ _).
Qed.

(** C3: an entry step whose payload field is missing or falsy returns
    "no event": it does not raise, and it leaves the context untouched.
    [ingest] is keyed on [dirname], [retrieve] on [query]. *)
Theorem entry_step_without_field (data : gmap string value) (c : Context) :
  (missing_or_falsy data "dirname" ->
     ingest data c = (c, Returned None) /\
     body ingest_step (StartEvent data) c = (c, Returned None)) /\
  (missing_or_falsy data "query" ->
     retrieve data c = (c, Returned None) /\
     body retrieve_step (StartEvent data) c = (c, Returned None)).
Proof.
  split; intros H%missing_or_falsy_get; simpl.
  - by rewrite ingest_falsy.
  - by rewrite retrieve_falsy.
Qed.

End StepProperties.

(** ** Properties of the run loop *)

Section EngineProperties.

Context {Obj : Objects}.

Lemma drive_unfold (w : list step) (fuel : nat) (c : Context)
      (ev : event) (rest : list event) :
  drive (S fuel) w c (ev :: rest) =
    let '(c', tr, res) := dispatch (matching w ev) ev c in
    match res with
    | Stop v => mkRun (Completed v) c' tr
    | Abort e => mkRun (Failed e) c' tr
    | Enqueue evs =>
        let r := drive fuel w c' (rest ++ evs) in
        mkRun (status r) (final_context r) (tr ++ trace r)
    end.
Proof. reflexivity. Qed.

Lemma dispatch_cons (s : step) (ss : list step) (ev : event) (c : Context) :
  dispatch (s :: ss) ev c =
    let '(c1, o) := body s ev c in
    let '(c2, tr, res) := dispatch ss ev c1 in
    (c2, mkInvocation (step_name s) ev c o :: tr,
     match o with
     | Raised e => Abort (StepExecutionError (step_name s) e)
     | Returned (Some (StopEvent v)) => Stop v
     | Returned r =>
         match res with
         | Enqueue evs => Enqueue (option_list r ++ evs)
         | _ => res
         end
     end).
Proof. reflexivity. Qed.

(** All invocations of a round are handed the event of the round. *)
Lemma dispatch_events (ss : list step) (ev : event) :
  forall (c c' : Context) (tr : list invocation) (res : round_result),
    dispatch ss ev c = (c', tr, res) ->
    Forall (fun inv => inv_event inv = ev) tr.
Proof.
  induction ss as [|s ss IH]; intros c c' tr res Hd.
  - simpl in Hd. simplify_eq. constructor.
  - rewrite dispatch_cons in Hd.
    destruct (body s ev c) as [c1 o].
    destruct (dispatch ss ev c1) as [[c2 tr2] res2] eqn:Hrest.
    simplify_eq. constructor; [done|]. by eapply IH.
Qed.

(** A round in which a step stopped or failed enqueues nothing. *)
Lemma dispatch_terminal (ss : list step) (ev : event) :
  forall (c c' : Context) (tr : list invocation) (res : round_result)
         (i : nat) (inv : invocation) (evs : list event),
    dispatch ss ev c = (c', tr, res) ->
    tr !! i = Some inv ->
    terminal (inv_outcome inv) ->
    res <> Enqueue evs.
Proof.
  induction ss as [|s ss IH]; intros c c' tr res i inv evs Hd Hi Ht.
  - simpl in Hd. by simplify_eq.
  - rewrite dispatch_cons in Hd.
    destruct (body s ev c) as [c1 o].
    destruct (dispatch ss ev c1) as [[c2 tr2] res2] eqn:Hrest.
    simplify_eq. destruct i as [|i]; simpl in Hi; simplify_eq.
    + simpl in Ht. by destruct o as [[[]|]|].
    + destruct o as [[[]|]|]; try done;
        destruct res2 as [evs2|v2|e2]; try done;
        by destruct (IH _ _ _ _ _ _ evs2 Hrest Hi Ht).
Qed.

(** The first step of a round to stop decides the round, when no step
    before it failed. *)
Lemma dispatch_first_stop (ss : list step) (ev : event) :
  forall (c c' : Context) (tr : list invocation) (res : round_result)
         (i : nat) (inv : invocation) (v : value),
    dispatch ss ev c = (c', tr, res) ->
    tr !! i = Some inv ->
    produced_stop inv v ->
    (forall j inv', (j < i)%nat -> tr !! j = Some inv' ->
                    ~ terminal (inv_outcome inv')) ->
    res = Stop v.
Proof.
  induction ss as [|s ss IH]; intros c c' tr res i inv v Hd Hi Hp Hfirst.
  - simpl in Hd. by simplify_eq.
  - rewrite dispatch_cons in Hd.
    destruct (body s ev c) as [c1 o].
    destruct (dispatch ss ev c1) as [[c2 tr2] res2] eqn:Hrest.
    simplify_eq. destruct i as [|i]; simpl in Hi; simplify_eq.
    + unfold produced_stop in Hp. simpl in Hp. by subst o.
    + assert (Hhead : ~ terminal o).
      { apply (Hfirst 0%nat (mkInvocation (step_name s) ev c o));
          [lia|done]. }
      assert (Hres2 : res2 = Stop v).
      { eapply IH; [done..|]. intros j inv' Hj Hl.
        apply (Hfirst (S j) inv'); [lia|done]. }
      subst res2. by destruct o as [[[]|]|].
Qed.

(** In every run of every workflow, once an invocation has produced a
    Stop event the run ends in that dispatch round: the invocations that
    follow are the other steps of that round, nothing that was enqueued
    is dispatched, and the run is completed with the payload of the
    first Stop event when no step failed before it. *)
Lemma first_stop_ends_run (w : list step) (fuel : nat) :
  forall (c : Context) (queue : list event)
         (i : nat) (inv : invocation) (v : value),
    trace (drive fuel w c queue) !! i = Some inv ->
    produced_stop inv v ->
    status (drive fuel w c queue) <> Running /\
    (forall j inv', (i < j)%nat ->
                    trace (drive fuel w c queue) !! j = Some inv' ->
                    inv_event inv' = inv_event inv) /\
    ((forall j inv', (j < i)%nat ->
                     trace (drive fuel w c queue) !! j = Some inv' ->
                     ~ terminal (inv_outcome inv')) ->
     status (drive fuel w c queue) = Completed v).
Proof.
  induction fuel as [|fuel IH]; intros c queue i inv v Hi Hp;
    destruct queue as [|ev rest]; try done.
  rewrite drive_unfold in *.
  destruct (dispatch (matching w ev) ev c) as [[c' tr] res] eqn:Hd.
  assert (Hterm : terminal (inv_outcome inv))
    by (unfold produced_stop in Hp; by rewrite Hp).
  pose proof (dispatch_events _ _ _ _ _ _ Hd) as Hev.
  rewrite Forall_lookup in Hev.
  destruct res as [evs|v'|e]; simpl in *.
  - apply lookup_app_Some in Hi as [Hi|[Hle Hi]].
    + by destruct (dispatch_terminal _ _ _ _ _ _ _ _ evs Hd Hi Hterm).
    + destruct (IH _ _ _ _ _ Hi Hp) as (Hrun & Hlater & Hfirst).
      split; [done|]. split.
      * intros j inv' Hj Hl.
        apply lookup_app_Some in Hl as [Hl|[Hle' Hl]];
          [apply lookup_lt_Some in Hl; lia|].
        apply (Hlater (j - length tr)%nat); [lia|done].
      * intros Hbefore. apply Hfirst. intros j inv' Hj Hl.
        apply (Hbefore (length tr + j)%nat); [lia|].
        rewrite lookup_app_r by lia.
        by replace (length tr + j - length tr)%nat with j by lia.
  - split; [done|]. split.
    + intros j inv' Hj Hl. by rewrite (Hev _ _ Hl), (Hev _ _ Hi).
    + intros Hbefore.
      pose proof (dispatch_first_stop _ _ _ _ _ _ _ _ _ Hd Hi Hp Hbefore).
      by simplify_eq.
  - split; [done|]. split.
    + intros j inv' Hj Hl. by rewrite (Hev _ _ Hl), (Hev _ _ Hi).
    + intros Hbefore.
      pose proof (dispatch_first_stop _ _ _ _ _ _ _ _ _ Hd Hi Hp Hbefore).
      by simplify_eq.
Qed.

(** A run that has ended is not changed by more fuel. *)
Lemma drive_stable (w : list step) (fuel : nat) :
  forall (c : Context) (queue : list event),
    status (drive fuel w c queue) <> Running ->
    drive (S fuel) w c queue = drive fuel w c queue.
Proof.
  induction fuel as [|fuel IH]; intros c queue Hst;
    destruct queue as [|ev rest]; try done.
  rewrite drive_unfold in Hst. rewrite (drive_unfold w (S fuel)).
  rewrite (drive_unfold w fuel).
  destruct (dispatch (matching w ev) ev c) as [[c' tr] res].
  destruct res as [evs|v|e]; try done.
  simpl in Hst. cbv zeta. by rewrite IH.
Qed.

Lemma drive_stable_le (w : list step) (fuel fuel' : nat) (c : Context)
      (queue : list event) :
  status (drive fuel w c queue) <> Running ->
  (fuel <= fuel')%nat ->
  drive fuel' w c queue = drive fuel w c queue.
Proof.
  intros Hst. induction 1 as [|fuel' _ IH]; [done|].
  rewrite <- IH. apply drive_stable. by rewrite IH.
Qed.

(** More fuel only extends the trace. *)
Lemma drive_trace_prefix (w : list step) (fuel : nat) :
  forall (c : Context) (queue : list event),
    trace (drive fuel w c queue) `prefix_of`
      trace (drive (S fuel) w c queue).
Proof.
  induction fuel as [|fuel IH]; intros c queue;
    destruct queue as [|ev rest]; try done.
  - apply prefix_nil.
  - rewrite (drive_unfold w (S fuel)), (drive_unfold w fuel).
    destruct (dispatch (matching w ev) ev c) as [[c' tr] res].
    destruct res as [evs|v|e]; try done.
    simpl. apply prefix_app, IH.
Qed.

Lemma drive_trace_prefix_le (w : list step) (fuel fuel' : nat)
      (c : Context) (queue : list event) :
  (fuel <= fuel')%nat ->
  trace (drive fuel w c queue) `prefix_of` trace (drive fuel' w c queue).
Proof.
  induction 1 as [|fuel' _ IH]; [done|].
  etrans; [exact IH|apply drive_trace_prefix].
Qed.

Lemma matching_subset (w : list step) (ev : event) (s : step) :
  s ∈ matching w ev -> s ∈ w.
Proof.
  unfold matching. rewrite !list_elem_of_In, filter_In. tauto.
Qed.

Lemma dispatch_conforms (w ss : list step) (ev : event) :
  (forall s, s ∈ ss -> s ∈ w) ->
  (forall s c, s ∈ w -> conforms s (body s ev c).2) ->
  forall (c c' : Context) (tr : list invocation) (res : round_result),
    dispatch ss ev c = (c', tr, res) ->
    Forall (invocation_conforms w) tr.
Proof.
  intros Hsub Hw. induction ss as [|s ss IH]; intros c c' tr res Hd.
  - simpl in Hd. simplify_eq. constructor.
  - rewrite dispatch_cons in Hd.
    assert (Hs : s ∈ w) by (apply Hsub; left).
    pose proof (Hw s c Hs) as Hc.
    destruct (body s ev c) as [c1 o] eqn:Hb. simpl in Hc.
    destruct (dispatch ss ev c1) as [[c2 tr2] res2] eqn:Hrest.
    simplify_eq. constructor.
    + by exists s.
    + eapply IH; [|done]. intros s' Hs'. apply Hsub. by right.
Qed.

Lemma drive_conforms (w : list step) :
  (forall s ev c, s ∈ w -> conforms s (body s ev c).2) ->
  forall (fuel : nat) (c : Context) (queue : list event),
    Forall (invocation_conforms w) (trace (drive fuel w c queue)).
Proof.
  intros Hw. induction fuel as [|fuel IH]; intros c queue;
    destruct queue as [|ev rest]; simpl; try constructor.
  destruct (dispatch (matching w ev) ev c) as [[c' tr] res] eqn:Hd.
  assert (Htr : Forall (invocation_conforms w) tr).
  { eapply dispatch_conforms; [apply matching_subset| |done].
    intros s c0 Hs. by apply Hw. }
  destruct res; simpl; [|done..].
  apply Forall_app. split; [done|apply IH].
Qed.

End EngineProperties.

(** ** Runs of [RAGWorkflow] *)

Section RAGProperties.

Context {Obj : Objects} {Sv : Services}.

Lemma ingest_conforms (data : gmap string value) (c : Context) :
  conforms ingest_step (ingest data c).2.
Proof.
  destruct (truthy (ev_get data "dirname")) eqn:Hd.
  - rewrite ingest_truthy by done.
    destruct (load_data _); [|done].
    destruct (from_documents _ _); simpl; auto.
  - by rewrite ingest_falsy.
Qed.

Lemma retrieve_conforms (data : gmap string value) (c : Context) :
  conforms retrieve_step (retrieve data c).2.
Proof.
  destruct (truthy (ev_get data "query")) eqn:Hq.
  - rewrite retrieve_truthy by done. simpl.
    destruct (ev_get data "index") as [| | | | |i|]; try done.
    destruct (aretrieve _ _ _); simpl; auto.
  - by rewrite retrieve_falsy.
Qed.

Lemma rerank_conforms (nodes : list Node) (c : Context) :
  conforms rerank_step (rerank nodes c).2.
Proof.
  rewrite rerank_eq. simpl.
  destruct (postprocess_nodes _ _ _ _ _); simpl; auto.
Qed.

Lemma synthesize_conforms (nodes : list Node) (c : Context) :
  conforms synthesize_step (synthesize nodes c).2.
Proof.
  rewrite synthesize_eq. simpl.
  destruct (asynthesize _ _ _); simpl; auto.
Qed.

Lemma RAGWorkflow_conforms (s : step) (ev : event) (c : Context) :
  s ∈ RAGWorkflow -> conforms s (body s ev c).2.
Proof.
  unfold RAGWorkflow. rewrite !elem_of_cons, elem_of_nil.
  intros [->|[->|[->|[->|[]]]]]; destruct ev; simpl; try done.
  - apply ingest_conforms.
  - apply retrieve_conforms.
  - apply rerank_conforms.
  - apply synthesize_conforms.
Qed.

(** C8: every step of [RAGWorkflow] returns only what its annotation
    declares, on every event and in every context: [ingest] a StopEvent
    or no event, [retrieve] a RetrieverEvent or no event, [rerank] a
    RerankEvent, [synthesize] a StopEvent.  So does every invocation of
    every run. *)
Theorem steps_respect_annotations :
  (produces ingest_step = [KStop] /\ may_return_none ingest_step = true) /\
  (produces retrieve_step = [KRetriever] /\
   may_return_none retrieve_step = true) /\
  (produces rerank_step = [KRerank] /\
   may_return_none rerank_step = false) /\
  (produces synthesize_step = [KStop] /\
   may_return_none synthesize_step = false) /\
  (forall s ev c, s ∈ RAGWorkflow -> conforms s (body s ev c).2) /\
  (forall payload fuel,
     Forall (invocation_conforms RAGWorkflow)
            (trace (run RAGWorkflow payload fuel))).
Proof.
  repeat split.
  - apply RAGWorkflow_conforms.
  - intros payload fuel. unfold run.
    apply drive_conforms. apply RAGWorkflow_conforms.
Qed.

(** The first dispatch round of a run, by what the two entry steps
    return. *)
Lemma run_start (data : gmap string value) (fuel : nat) :
  run RAGWorkflow data (S fuel) =
    let '(c', tr, res) :=
      dispatch [ingest_step; retrieve_step] (StartEvent data) new_context in
    match res with
    | Stop v => mkRun (Completed v) c' tr
    | Abort e => mkRun (Failed e) c' tr
    | Enqueue evs =>
        let r := drive fuel RAGWorkflow c' evs in
        mkRun (status r) (final_context r) (tr ++ trace r)
    end.
Proof. reflexivity. Qed.

Lemma drive_retriever (nodes : list Node) (c : Context) (fuel : nat) :
  drive (S fuel) RAGWorkflow c [RetrieverEvent nodes] =
    let '(c', tr, res) :=
      dispatch [rerank_step] (RetrieverEvent nodes) c in
    match res with
    | Stop v => mkRun (Completed v) c' tr
    | Abort e => mkRun (Failed e) c' tr
    | Enqueue evs =>
        let r := drive fuel RAGWorkflow c' evs in
        mkRun (status r) (final_context r) (tr ++ trace r)
    end.
Proof. reflexivity. Qed.

Lemma drive_rerank (nodes : list Node) (c : Context) (fuel : nat) :
  drive (S fuel) RAGWorkflow c [RerankEvent nodes] =
    let '(c', tr, res) :=
      dispatch [synthesize_step] (RerankEvent nodes) c in
    match res with
    | Stop v => mkRun (Completed v) c' tr
    | Abort e => mkRun (Failed e) c' tr
    | Enqueue evs =>
        let r := drive fuel RAGWorkflow c' evs in
        mkRun (status r) (final_context r) (tr ++ trace r)
    end.
Proof. reflexivity. Qed.

(** C4: when neither [dirname] nor [query] is a field of the Start
    payload, both entry steps return no event, the queue drains, and the
    run fails with [NoTerminationError]. *)
Theorem no_entry_field_no_termination (data : gmap string value)
        (fuel : nat) :
  data !! "dirname" = None ->
  data !! "query" = None ->
  (1 <= fuel)%nat ->
  status (run RAGWorkflow data fuel) = Failed NoTerminationError /\
  trace (run RAGWorkflow data fuel) =
    [mkInvocation "ingest" (StartEvent data) new_context (Returned None);
     mkInvocation "retrieve" (StartEvent data) new_context (Returned None)].
Proof.
  intros Hd Hq Hfuel. destruct fuel as [|fuel]; [lia|].
  rewrite run_start. simpl.
  rewrite ingest_falsy by (unfold ev_get; by rewrite Hd).
  rewrite retrieve_falsy by (unfold ev_get; by rewrite Hq).
  simpl. by destruct fuel.
Qed.

(** [ingest] neither reads nor writes the context: the order in which
    the two entry steps are taken on a Start event does not change what
    either of them sees or returns. *)
Lemma ingest_ignores_context (data : gmap string value) (c c' : Context) :
  (ingest data c).1 = c /\ (ingest data c).2 = (ingest data c').2.
Proof.
  destruct (truthy (ev_get data "dirname")) eqn:Hd.
  - rewrite !ingest_truthy by done.
    destruct (load_data _); [destruct (from_documents _ _)|]; done.
  - by rewrite !ingest_falsy.
Qed.

(** The cases of a run of [RAGWorkflow] that got three rounds: what the
    entry steps find in the payload, and what the services answer. *)
Ltac run_cases data :=
  rewrite ?run_start; simpl;
  destruct (truthy (ev_get data "dirname")) eqn:Hdir;
  [ rewrite ?ingest_truthy by done;
    destruct (load_data _) as [docs|] eqn:Hload;
    [destruct (from_documents _ _) as [idx|] eqn:Hbuild|]
  | rewrite ?ingest_falsy by done ];
  simpl;
  (destruct (truthy (ev_get data "query")) eqn:Hquery;
   [ rewrite ?retrieve_truthy by done; simpl;
     destruct (ev_get data "index") as [| | | | |i|] eqn:Hindex;
     try (destruct (aretrieve i 2 _) as [nodes|] eqn:Hretr)
   | rewrite ?retrieve_falsy by done ]);
  simpl;
  try (rewrite rerank_eq; simpl;
       destruct (postprocess_nodes _ _ _ _ _) as [new_nodes|] eqn:Hrerank;
       simpl;
       try (rewrite synthesize_eq; simpl;
            destruct (asynthesize _ _ _) as [response|] eqn:Hsynth));
  simpl.

(** Three dispatch rounds are enough for every run of [RAGWorkflow]:
    whatever the payload and the services, the run is then completed or
    failed. *)
Lemma run_finishes (data : gmap string value) (fuel : nat) :
  (3 <= fuel)%nat -> status (run RAGWorkflow data fuel) <> Running.
Proof.
  intros Hfuel. destruct fuel as [|[|[|fuel]]]; [lia..|].
  run_cases data; done.
Qed.

Lemma run_three_rounds (data : gmap string value) (fuel : nat) :
  (3 <= fuel)%nat -> run RAGWorkflow data fuel = run RAGWorkflow data 3.
Proof.
  intros Hfuel. unfold run. apply drive_stable_le; [|done].
  by apply (run_finishes data 3).
Qed.

Lemma trace_in_three (data : gmap string value) (fuel : nat)
      (inv : invocation) :
  inv ∈ trace (run RAGWorkflow data fuel) ->
  inv ∈ trace (run RAGWorkflow data 3).
Proof.
  intros Hin. destruct (decide (fuel <= 3)%nat) as [Hle|Hgt].
  - destruct (drive_trace_prefix_le RAGWorkflow fuel 3 new_context
                [StartEvent data] Hle) as [k Hk].
    unfold run. rewrite Hk. apply elem_of_app. by left.
  - by rewrite <- (run_three_rounds data fuel) by lia.
Qed.

(** In every run, whatever the payload and whatever the services do, a
    [rerank] invocation starts in a context whose [query] key holds the
    query passed to [run]. *)
Lemma rerank_sees_query (data : gmap string value) (fuel : nat) :
  Forall (sees_query data) (trace (run RAGWorkflow data fuel)).
Proof.
  apply Forall_forall. intros inv Hin%trace_in_three.
  revert Hin. unfold sees_query. run_cases data.
  all: rewrite ?elem_of_cons, elem_of_nil.
  all: intros Hin; repeat (destruct Hin as [->|Hin]); try done.
Qed.

(** The run of a query payload up to the dispatch of the RetrieverEvent. *)
Lemma run_query_start (data : gmap string value) (q : value) (i : Index)
      (nodes : list Node) (fuel : nat) :
  missing_or_falsy data "dirname" ->
  data !! "query" = Some q ->
  truthy q = true ->
  data !! "index" = Some (VIndex i) ->
  aretrieve i 2 q = Some nodes ->
  run RAGWorkflow data (S fuel) =
    let r := drive fuel RAGWorkflow
               (after_retrieve new_context q [PrintRetrieved (length nodes)])
               [RetrieverEvent nodes] in
    mkRun (status r) (final_context r)
      (mkInvocation "ingest" (StartEvent data) new_context (Returned None)
       :: mkInvocation "retrieve" (StartEvent data) new_context
            (Returned (Some (RetrieverEvent nodes)))
       :: trace r).
Proof.
  intros Hd%missing_or_falsy_get Hq Hqt Hi Hr.
  assert (Hq' : ev_get data "query" = q) by (unfold ev_get; by rewrite Hq).
  assert (Hi' : ev_get data "index" = VIndex i)
    by (unfold ev_get; by rewrite Hi).
  rewrite run_start. simpl.
  rewrite ingest_falsy by done. simpl.
  rewrite retrieve_truthy by (by rewrite Hq').
  simpl. rewrite Hi', Hq', Hr. reflexivity.
Qed.

(** C1, as amended: the two entry points select themselves by the
    payload's fields.  Both are handed every Start event.  On a payload
    with a truthy [dirname] and no [query], [ingest] returns the Stop
    event with the index built from the directory, which is the result
    of the run, and [retrieve] returns no event and leaves the context
    as it was.  On a payload with a truthy [query] and an [index] and no
    [dirname], [ingest] returns no event and [retrieve] returns a
    RetrieverEvent, which is then handed to [rerank]. *)
Theorem entry_points_self_select
        (data1 data2 : gmap string value) (d q : value)
        (docs : list Document) (idx i : Index) (nodes : list Node)
        (fuel : nat) :
  data1 !! "dirname" = Some d -> data1 !! "query" = None ->
  truthy d = true ->
  load_data d = Some docs ->
  from_documents docs "text-embedding-3-small" = Some idx ->
  data2 !! "query" = Some q -> data2 !! "index" = Some (VIndex i) ->
  data2 !! "dirname" = None ->
  truthy q = true ->
  aretrieve i 2 q = Some nodes ->
  (2 <= fuel)%nat ->
  (status (run RAGWorkflow data1 fuel) = Completed (VIndex idx) /\
   trace (run RAGWorkflow data1 fuel) =
     [mkInvocation "ingest" (StartEvent data1) new_context
        (Returned (Some (StopEvent (VIndex idx))));
      mkInvocation "retrieve" (StartEvent data1) new_context
        (Returned None)] /\
   final_context (run RAGWorkflow data1 fuel) = new_context /\
   (forall c, retrieve data1 c = (c, Returned None))) /\
  (ingest data2 new_context = (new_context, Returned None) /\
   exists o rest,
     trace (run RAGWorkflow data2 fuel) =
       mkInvocation "ingest" (StartEvent data2) new_context (Returned None)
       :: mkInvocation "retrieve" (StartEvent data2) new_context
            (Returned (Some (RetrieverEvent nodes)))
       :: mkInvocation "rerank" (RetrieverEvent nodes)
            (after_retrieve new_context q [PrintRetrieved (length nodes)])
            o
       :: rest).
Proof.
  intros Hd1 Hq1 Hdt Hload Hbuild Hq2 Hi2 Hd2 Hqt Hr Hfuel.
  destruct fuel as [|[|fuel]]; [lia..|].
  assert (Hd1' : ev_get data1 "dirname" = d)
    by (unfold ev_get; by rewrite Hd1).
  assert (Hq1' : truthy (ev_get data1 "query") = false)
    by (unfold ev_get; by rewrite Hq1).
  assert (Hd2' : truthy (ev_get data2 "dirname") = false)
    by (unfold ev_get; by rewrite Hd2).
  split; [|split].
  - rewrite run_start. simpl.
    rewrite ingest_truthy by (by rewrite Hd1').
    rewrite Hd1', Hload, Hbuild. simpl.
    rewrite retrieve_falsy by done. simpl.
    repeat split. intros c. by apply retrieve_falsy.
  - by apply ingest_falsy.
  - rewrite (run_query_start data2 q i nodes) by
      (try done; by apply missing_or_falsy_get).
    cbv zeta. rewrite drive_retriever. simpl.
    destruct (rerank nodes _) as [c2 [[[]|]|ex]]; simpl; eauto.
Qed.

(** C2, as amended: in every run, whatever the payload and the services,
    the [query] key of the context holds the query passed to [run]
    whenever [rerank] is invoked.  A run with a truthy query and an
    index object, on a payload that does not ask for ingestion, and in
    which retrieval, reranking and synthesis succeed, invokes [rerank]
    on the retrieved nodes and completes with the response the
    synthesizer returned for the query and the reranked nodes. *)
Theorem query_run_answers :
  (forall (data : gmap string value) (fuel : nat) (inv : invocation)
          (d : value),
     inv ∈ trace (run RAGWorkflow data fuel) ->
     inv_step inv = "rerank" ->
     store_get "query" d (store (inv_context inv)) = ev_get data "query") /\
  (forall (data : gmap string value) (q : value) (i : Index)
          (nodes new_nodes : list Node) (resp : Response) (fuel : nat),
     data !! "query" = Some q ->
     truthy q = true ->
     data !! "index" = Some (VIndex i) ->
     missing_or_falsy data "dirname" ->
     aretrieve i 2 q = Some nodes ->
     postprocess_nodes 5 3 "gpt-4o-mini" nodes q = Some new_nodes ->
     asynthesize "gpt-4o-mini" q new_nodes = Some resp ->
     (3 <= fuel)%nat ->
     (exists inv,
        inv ∈ trace (run RAGWorkflow data fuel) /\
        inv_step inv = "rerank" /\
        inv_event inv = RetrieverEvent nodes /\
        store (inv_context inv) !! "query" = Some q /\
        inv_outcome inv = Returned (Some (RerankEvent new_nodes))) /\
     status (run RAGWorkflow data fuel) = Completed (VResponse resp)).
Proof.
  split.
  - intros data fuel inv d Hin Hstep.
    pose proof (rerank_sees_query data fuel) as Hall.
    rewrite Forall_forall in Hall. specialize (Hall inv Hin Hstep).
    unfold store_get. by rewrite Hall.
  - intros data q i nodes new_nodes resp fuel Hq Hqt Hi Hd Hr Hrr Hs Hfuel.
    destruct fuel as [|[|[|fuel]]]; [lia..|].
    rewrite (run_query_start data q i nodes) by done.
    cbv zeta. rewrite drive_retriever. simpl. rewrite rerank_eq. simpl.
    rewrite store_get_set_eq, Hrr. simpl.
    rewrite synthesize_eq. simpl.
    rewrite store_get_set_eq, Hs.
    split; [|done].
    eexists. split; [do 2 right; left|]. done.
Qed.

(** C9: on a payload with a truthy [query] whose [index] is [None] or
    missing, [retrieve] prints, stores the query under the key [query],
    and returns no event; it does not raise.  No invocation of such a run
    returns a RetrieverEvent, and when [ingest] has nothing to do either
    the run ends with the query still in its context. *)
Theorem query_without_index
        (data : gmap string value) (q : value) (c : Context) :
  data !! "query" = Some q ->
  truthy q = true ->
  ev_get data "index" = VNone ->
  (retrieve data c =
     (after_retrieve c q [PrintIndexEmpty], Returned None) /\
   forall d, store_get "query" d
               (store (after_retrieve c q [PrintIndexEmpty])) = q) /\
  (forall fuel inv nodes,
     inv ∈ trace (run RAGWorkflow data fuel) ->
     inv_outcome inv <> Returned (Some (RetrieverEvent nodes))) /\
  (forall fuel,
     missing_or_falsy data "dirname" -> (1 <= fuel)%nat ->
     status (run RAGWorkflow data fuel) = Failed NoTerminationError /\
     store (final_context (run RAGWorkflow data fuel)) !! "query" = Some q).
Proof.
  intros Hq Hqt Hi.
  assert (Hq' : ev_get data "query" = q) by (unfold ev_get; by rewrite Hq).
  assert (Hret : forall c0, retrieve data c0 =
                   (after_retrieve c0 q [PrintIndexEmpty], Returned None)).
  { intros c0. rewrite retrieve_truthy by (by rewrite Hq').
    simpl. by rewrite Hi, Hq'. }
  split; [split|split].
  - apply Hret.
  - intros d. simpl. apply store_get_set_eq.
  - intros fuel inv nodes Hin%trace_in_three.
    revert Hin. rewrite run_start. simpl.
    destruct (truthy (ev_get data "dirname")) eqn:Hd.
    + rewrite ingest_truthy by done.
      destruct (load_data _); [destruct (from_documents _ _)|];
        simpl; rewrite Hret; simpl;
        rewrite ?elem_of_cons, elem_of_nil;
        intros Hin; repeat (destruct Hin as [->|Hin]); done.
    + rewrite ingest_falsy by done. simpl. rewrite Hret. simpl.
      rewrite ?elem_of_cons, elem_of_nil.
      intros Hin; repeat (destruct Hin as [->|Hin]); done.
  - intros fuel Hd%missing_or_falsy_get Hfuel.
    destruct fuel as [|fuel]; [lia|].
    rewrite run_start. simpl.
    rewrite ingest_falsy by done. simpl. rewrite Hret. simpl.
    destruct fuel; simpl; (split; [done|apply lookup_insert_eq]).
Qed.

(** C10: when the payload's [dirname] is truthy and loading the
    documents and building the index succeed, [ingest] returns a
    StopEvent carrying the built index, and the run completes with that
    index as its result. *)
Theorem ingest_returns_built_index
        (data : gmap string value) (d : value) (docs : list Document)
        (idx : Index) (c : Context) (fuel : nat) :
  data !! "dirname" = Some d ->
  truthy d = true ->
  load_data d = Some docs ->
  from_documents docs "text-embedding-3-small" = Some idx ->
  (1 <= fuel)%nat ->
  ingest data c = (c, Returned (Some (StopEvent (VIndex idx)))) /\
  status (run RAGWorkflow data fuel) = Completed (VIndex idx) /\
  status (run RAGWorkflow data fuel) <> Failed NoTerminationError.
Proof.
  intros Hd Hdt Hload Hbuild Hfuel.
  assert (Hd' : ev_get data "dirname" = d)
    by (unfold ev_get; by rewrite Hd).
  assert (Hing : forall c0, ingest data c0 =
                   (c0, Returned (Some (StopEvent (VIndex idx))))).
  { intros c0. rewrite ingest_truthy by (by rewrite Hd').
    by rewrite Hd', Hload, Hbuild. }
  destruct fuel as [|fuel]; [lia|].
  split; [apply Hing|].
  rewrite run_start. simpl. rewrite Hing. simpl.
  destruct (retrieve data new_context) as [c2 o2]. by split.
Qed.

(** C7: a Stop event ends the run.  In every run of every workflow, once
    an invocation has produced a Stop event the run ends in that
    dispatch round: the invocations that follow are the other steps
    handed the same event, no enqueued event is dispatched any more, and
    the run is completed with the payload of the first Stop event,
    unless a step failed before it.  In [RAGWorkflow] no two steps can
    stop in the same round and no step fails before one that stops: a
    run in which a step produced a Stop event is completed with that
    event's payload. *)
Theorem stop_ends_run :
  (forall (w : list step) (payload : gmap string value) (fuel n : nat)
          (inv : invocation) (v : value),
     trace (run w payload fuel) !! n = Some inv ->
     produced_stop inv v ->
     status (run w payload fuel) <> Running /\
     (forall j inv', (n < j)%nat ->
                     trace (run w payload fuel) !! j = Some inv' ->
                     inv_event inv' = inv_event inv) /\
     ((forall j inv', (j < n)%nat ->
                      trace (run w payload fuel) !! j = Some inv' ->
                      ~ terminal (inv_outcome inv')) ->
      status (run w payload fuel) = Completed v)) /\
  (forall (payload : gmap string value) (fuel n : nat)
          (inv : invocation) (v : value),
     trace (run RAGWorkflow payload fuel) !! n = Some inv ->
     produced_stop inv v ->
     status (run RAGWorkflow payload fuel) = Completed v).
Proof.
  split.
  - intros w payload fuel n inv v. unfold run. apply first_stop_ends_run.
  - intros payload fuel n inv v Hi Hp.
    destruct (first_stop_ends_run RAGWorkflow fuel new_context
                [StartEvent payload] n inv v Hi Hp) as [Hrun _].
    assert (Hsame : run RAGWorkflow payload fuel = run RAGWorkflow payload 3).
    { rewrite <- (run_three_rounds payload (fuel + 3)) by lia.
      unfold run. symmetry. apply drive_stable_le; [done|lia]. }
    rewrite Hsame in *. clear Hsame Hrun.
    apply list_elem_of_lookup_2 in Hi. revert Hi Hp.
    unfold produced_stop. run_cases payload.
    all: rewrite ?elem_of_cons, elem_of_nil.
    all: intros Hin; repeat (destruct Hin as [->|Hin]); try done; simpl.
    all: intros Hp; by simplify_eq.
Qed.

(** ** Further properties of the steps and of the runs *)

(** *** Effects of the steps *)

Lemma ingest_context (data : gmap string value) (c : Context) :
  (ingest data c).1 = c.
Proof. apply ingest_ignores_context. exact c. Qed.

Lemma retrieve_store (data : gmap string value) (c : Context) :
  store (retrieve data c).1 = store c \/
  store (retrieve data c).1 =
    store_set "query" (ev_get data "query") (store c).
Proof.
  destruct (truthy (ev_get data "query")) eqn:Hq.
  - right. rewrite retrieve_truthy by done. simpl.
    destruct (ev_get data "index") as [| | | | |i|]; try done.
    by destruct (aretrieve i 2 _).
  - left. by rewrite retrieve_falsy.
Qed.

Lemma rerank_store (nodes : list Node) (c : Context) :
  store (rerank nodes c).1 = store c.
Proof.
  rewrite rerank_eq. simpl. by destruct (postprocess_nodes _ _ _ _ _).
Qed.

Lemma synthesize_context (nodes : list Node) (c : Context) :
  (synthesize nodes c).1 = c.
Proof.
  rewrite synthesize_eq. simpl. by destruct (asynthesize _ _ _).
Qed.

(** X1: the store is written by [retrieve] only, and under the key
    [query] only.  Every step of the workflow, on every event and in
    every context, leaves all other keys as they were; every step other
    than [retrieve] leaves the whole store as it was. *)
Theorem steps_write_only_query (s : step) (ev : event) (c : Context) :
  s ∈ RAGWorkflow ->
  (forall k, k ≠ "query" -> store (body s ev c).1 !! k = store c !! k) /\
  (step_name s ≠ "retrieve" -> store (body s ev c).1 = store c).
Proof.
  unfold RAGWorkflow. rewrite !elem_of_cons, elem_of_nil.
  intros [->|[->|[->|[->|[]]]]]; destruct ev; simpl; try done.
  - by rewrite ingest_context.
  - split; [|done]. intros k Hk.
    destruct (retrieve_store data c) as [-> | ->]; [done|].
    unfold store_set. by rewrite lookup_insert_ne.
  - by rewrite rerank_store.
  - by rewrite synthesize_context.
Qed.

(** X2: once [retrieve] has found a query, it has stored it and printed
    the "Query the database" line whatever happens next: also when the
    index is missing, when the index object is not an index, and when
    the retriever fails. *)
Theorem retrieve_effects_precede_failure
        (data : gmap string value) (c : Context) :
  truthy (ev_get data "query") = true ->
  store (retrieve data c).1 = store_set "query" (ev_get data "query") (store c) /\
  exists ls,
    stdout (retrieve data c).1 =
      (stdout c ++ PrintQueryDb (ev_get data "query") :: ls)%list.
Proof.
  intros Hq. rewrite retrieve_truthy by done. simpl.
  destruct (ev_get data "index") as [| | | | |i|]; simpl; eauto.
  destruct (aretrieve i 2 _); simpl; eauto.
Qed.

(** X3: no step raises by itself.  [ingest] raises exactly when it was
    asked to ingest and loading or indexing fails; [retrieve] exactly
    when it has a query and an index that is not an index object or
    whose retriever fails; [rerank] exactly when the reranker fails on
    the stored query, [synthesize] exactly when the synthesizer does. *)
Theorem steps_raise_only_on_failure
        (data : gmap string value) (nodes : list Node) (c : Context) :
  (raises (ingest data c) <->
     truthy (ev_get data "dirname") = true /\
     (load_data (ev_get data "dirname") = None \/
      exists docs, load_data (ev_get data "dirname") = Some docs /\
                   from_documents docs "text-embedding-3-small" = None)) /\
  (raises (retrieve data c) <->
     truthy (ev_get data "query") = true /\
     match ev_get data "index" with
     | VNone => False
     | VIndex i => aretrieve i 2 (ev_get data "query") = None
     | _ => True
     end) /\
  (raises (rerank nodes c) <->
     postprocess_nodes 5 3 "gpt-4o-mini" nodes
       (store_get "query" VNone (store c)) = None) /\
  (raises (synthesize nodes c) <->
     asynthesize "gpt-4o-mini" (store_get "query" VNone (store c)) nodes
       = None).
Proof.
  unfold raises. split; [|split; [|split]]; split.
  - intros [e He].
    destruct (truthy (ev_get data "dirname")) eqn:Hd;
      [| by rewrite ingest_falsy in He].
    split; [done|].
    rewrite ingest_truthy in He by done.
    destruct (load_data _) as [docs|]; [|by left].
    right. exists docs. split; [done|].
    by destruct (from_documents _ _).
  - intros [Hd [Hl | [docs [Hl Hb]]]]; rewrite ingest_truthy by done;
      rewrite Hl; [|rewrite Hb]; eauto.
  - intros [e He].
    destruct (truthy (ev_get data "query")) eqn:Hq;
      [| by rewrite retrieve_falsy in He].
    split; [done|].
    rewrite retrieve_truthy in He by done. simpl in He.
    destruct (ev_get data "index") as [| | | | |i|]; try done.
    by destruct (aretrieve i 2 _).
  - intros [Hq Hi]. rewrite retrieve_truthy by done. simpl.
    destruct (ev_get data "index") as [| | | | |i|]; simpl; eauto;
      [done|]. rewrite Hi. eauto.
  - intros [e He]. rewrite rerank_eq in He. simpl in He.
    by destruct (postprocess_nodes _ _ _ _ _).
  - intros Hp. rewrite rerank_eq. simpl. rewrite Hp. eauto.
  - intros [e He]. rewrite synthesize_eq in He. simpl in He.
    by destruct (asynthesize _ _ _).
  - intros Hs. rewrite synthesize_eq. simpl. rewrite Hs. eauto.
Qed.

(** X4: the entry steps read the fields [dirname], [query] and [index]
    and nothing else of the payload.  On two payloads that agree on
    these fields both steps do the same in every context, and the two
    runs have the same status and leave the same context, whatever else
    the payloads carry. *)
Theorem other_fields_ignored (data data' : gmap string value) :
  same_fields data data' ->
  (forall c, ingest data c = ingest data' c) /\
  (forall c, retrieve data c = retrieve data' c) /\
  (forall fuel,
     status (run RAGWorkflow data fuel) =
       status (run RAGWorkflow data' fuel) /\
     final_context (run RAGWorkflow data fuel) =
       final_context (run RAGWorkflow data' fuel)).
Proof.
  intros (Hd & Hq & Hi).
  assert (Hing : forall c, ingest data c = ingest data' c)
    by (intros c; unfold ingest; by rewrite Hd).
  assert (Hret : forall c, retrieve data c = retrieve data' c)
    by (intros c; unfold retrieve; by rewrite Hq, Hi).
  split; [done|]. split; [done|].
  intros fuel. destruct fuel as [|fuel]; [done|].
  rewrite !run_start. simpl. rewrite Hing.
  destruct (ingest data' new_context) as [c1 [[[]|]|ex]];
    simpl; try done; rewrite Hret;
    destruct (retrieve data' c1) as [c2 [[[]|]|ex']]; simpl; done.
Qed.

Lemma run_status_pipeline (data : gmap string value) (fuel : nat) :
  (3 <= fuel)%nat ->
  status (run RAGWorkflow data fuel) = pipeline data.
Proof.
  intros Hfuel. rewrite run_three_rounds by done.
  unfold pipeline. run_cases data; try done.
  all: by rewrite ?store_get_set_eq, ?Hrerank, ?Hsynth.
Qed.

(** X5: the workflow computes the pipeline.  Three dispatch rounds end
    every run, and the status of the run is then what the pipeline
    gives on the payload, failures included. *)
Theorem run_is_pipeline (data : gmap string value) (fuel : nat) :
  (3 <= fuel)%nat ->
  status (run RAGWorkflow data fuel) <> Running /\
  status (run RAGWorkflow data fuel) = pipeline data.
Proof.
  intros Hfuel. split.
  - by apply run_finishes.
  - by apply run_status_pipeline.
Qed.

(** X6: the steps are invoked in the order of the pipeline and each at
    most once: whatever the payload, the services and the fuel, the
    names of the invoked steps are an initial part of ingest, retrieve,
    rerank, synthesize.  No run needs more than three dispatch rounds. *)
Theorem run_follows_pipeline_order (data : gmap string value) (fuel : nat) :
  map inv_step (trace (run RAGWorkflow data fuel)) `prefix_of`
    ["ingest"; "retrieve"; "rerank"; "synthesize"] /\
  (length (trace (run RAGWorkflow data fuel)) <= 4)%nat /\
  status (run RAGWorkflow data (3 + fuel)) <> Running /\
  run RAGWorkflow data (3 + fuel) = run RAGWorkflow data 3.
Proof.
  assert (Hthree : map inv_step (trace (run RAGWorkflow data 3)) `prefix_of`
                     ["ingest"; "retrieve"; "rerank"; "synthesize"]).
  { run_cases data.
    all: try (by eexists [_; _; _]).
    all: try (by eexists [_; _]).
    all: try (by eexists [_]).
    all: by exists []. }
  assert (Hpre : trace (run RAGWorkflow data fuel) `prefix_of`
                   trace (run RAGWorkflow data 3)).
  { destruct (decide (fuel <= 3)%nat) as [Hle|Hgt].
    - by apply drive_trace_prefix_le.
    - rewrite run_three_rounds by lia. done. }
  assert (Hnames : map inv_step (trace (run RAGWorkflow data fuel))
                     `prefix_of` ["ingest"; "retrieve"; "rerank"; "synthesize"]).
  { etrans; [|exact Hthree]. destruct Hpre as [k ->].
    rewrite map_app. by eexists. }
  split; [done|]. split.
  - apply prefix_length in Hnames. rewrite length_map in Hnames.
    exact Hnames.
  - split; [apply run_finishes; lia | apply run_three_rounds; lia].
Qed.

(** X7: when a run has ended its store holds the query and nothing else
    if the payload's query is truthy, and is empty otherwise.
    [retrieve] is handed every Start event, so this does not depend on
    whether ingestion was asked for as well. *)
Theorem final_store (data : gmap string value) (fuel : nat) :
  (3 <= fuel)%nat ->
  store (final_context (run RAGWorkflow data fuel)) =
    if truthy (ev_get data "query")
    then {[ "query" := ev_get data "query" ]}
    else ∅.
Proof.
  intros Hfuel. rewrite run_three_rounds by done.
  run_cases data; done.
Qed.

(** X8: what a run prints.  A run without a truthy query prints nothing.
    A run with a query and no index prints the query line and the "Index
    is empty" line.  A query run in which retrieval, reranking and
    synthesis succeed prints the query line, the number of retrieved
    nodes, the stored query and the number of reranked nodes, in this
    order, as in the output recorded in the notebook.  A run asked to
    ingest as well prints what [retrieve] prints and no more. *)
Theorem run_output (data : gmap string value) (fuel : nat) :
  (3 <= fuel)%nat ->
  let q := ev_get data "query" in
  let out := stdout (final_context (run RAGWorkflow data fuel)) in
  (truthy q = false -> out = []) /\
  (truthy q = true -> ev_get data "index" = VNone ->
   out = [PrintQueryDb q; PrintIndexEmpty]) /\
  (forall i nodes new_nodes response,
     truthy (ev_get data "dirname") = false -> truthy q = true ->
     ev_get data "index" = VIndex i ->
     aretrieve i 2 q = Some nodes ->
     postprocess_nodes 5 3 "gpt-4o-mini" nodes q = Some new_nodes ->
     asynthesize "gpt-4o-mini" q new_nodes = Some response ->
     out = [PrintQueryDb q; PrintRetrieved (length nodes); PrintValue q;
            PrintReranked (length new_nodes)]) /\
  (forall i nodes,
     truthy (ev_get data "dirname") = true -> truthy q = true ->
     ev_get data "index" = VIndex i ->
     aretrieve i 2 q = Some nodes ->
     out = [PrintQueryDb q; PrintRetrieved (length nodes)]).
Proof.
  intros Hfuel q out. subst q out. rewrite run_three_rounds by done.
  split; [|split; [|split]].
  - intros Hq. run_cases data; done.
  - intros Hq Hi. run_cases data; done.
  - intros i0 nodes0 new_nodes0 response0 Hd Hq Hi Hr Hrr Hs.
    rewrite run_start. simpl.
    rewrite ingest_falsy by done. simpl.
    rewrite retrieve_truthy by done. simpl.
    rewrite Hi, Hr. simpl. rewrite rerank_eq. simpl.
    rewrite store_get_set_eq, Hrr. simpl. rewrite synthesize_eq. simpl.
    by rewrite store_get_set_eq, Hs.
  - intros i0 nodes0 Hd Hq Hi Hr.
    rewrite run_start. simpl.
    rewrite ingest_truthy by done.
    destruct (load_data _); [destruct (from_documents _ _)|]; simpl;
      rewrite retrieve_truthy by done; simpl; by rewrite Hi, Hr.
Qed.

(** X9: a completed run returns an index exactly when ingestion was
    asked for, and a response otherwise; it never returns [None] or any
    other value.  This holds for whatever fuel the run completed with. *)
Theorem result_kind (data : gmap string value) (fuel : nat) (v : value) :
  status (run RAGWorkflow data fuel) = Completed v ->
  (truthy (ev_get data "dirname") = true /\ exists idx, v = VIndex idx) \/
  (truthy (ev_get data "dirname") = false /\
   truthy (ev_get data "query") = true /\ exists r, v = VResponse r).
Proof.
  intros Hst.
  assert (Hpipe : pipeline data = Completed v).
  { rewrite <- (run_status_pipeline data (fuel + 3)) by lia.
    unfold run in *. rewrite (drive_stable_le RAGWorkflow fuel); [done| |lia].
    by rewrite Hst. }
  unfold pipeline in Hpipe.
  destruct (truthy (ev_get data "dirname")) eqn:Hd.
  - left. split; [done|].
    destruct (load_data _); [destruct (from_documents _ _)|];
      simplify_eq; eauto.
  - right. split; [done|].
    destruct (truthy (ev_get data "query")) eqn:Hq; [|done].
    split; [done|].
    destruct (ev_get data "index") as [| | | | |i|]; try done.
    destruct (aretrieve _ _ _); [|done].
    destruct (postprocess_nodes _ _ _ _ _); [|done].
    destruct (asynthesize _ _ _); simplify_eq; eauto.
Qed.

(** X10: the entry points do not exclude each other.  On a payload with
    a truthy [dirname] and a truthy [query] with an index, both entry
    steps produce an event when their services succeed.  Both are
    invoked in the run and [retrieve] stores the query, but the run is
    an ingestion: it completes with the newly built index, the
    RetrieverEvent is not dispatched, and the query is not answered. *)
Theorem both_entry_points_fire
        (data : gmap string value) (docs : list Document) (idx i : Index)
        (nodes : list Node) (c : Context) (fuel : nat) :
  truthy (ev_get data "dirname") = true ->
  load_data (ev_get data "dirname") = Some docs ->
  from_documents docs "text-embedding-3-small" = Some idx ->
  truthy (ev_get data "query") = true ->
  ev_get data "index" = VIndex i ->
  aretrieve i 2 (ev_get data "query") = Some nodes ->
  (1 <= fuel)%nat ->
  (ingest data c).2 = Returned (Some (StopEvent (VIndex idx))) /\
  (retrieve data c).2 = Returned (Some (RetrieverEvent nodes)) /\
  status (run RAGWorkflow data fuel) = Completed (VIndex idx) /\
  map inv_step (trace (run RAGWorkflow data fuel)) = ["ingest"; "retrieve"] /\
  store (final_context (run RAGWorkflow data fuel)) !! "query" =
    Some (ev_get data "query").
Proof.
  intros Hd Hload Hbuild Hq Hi Hr Hfuel.
  destruct fuel as [|fuel]; [lia|].
  split; [|split].
  - rewrite ingest_truthy by done. by rewrite Hload, Hbuild.
  - rewrite retrieve_truthy by done. simpl. by rewrite Hi, Hr.
  - rewrite run_start. simpl. rewrite ingest_truthy by done.
    rewrite Hload, Hbuild. simpl.
    rewrite retrieve_truthy by done. simpl. rewrite Hi, Hr. simpl.
    repeat split; apply lookup_insert_eq.
Qed.

(** X11: the two cells of the notebook, end to end.  When the directory
    loads and indexes, and retrieval from the index just built,
    reranking and synthesis succeed, the second run returns the
    response synthesized from the reranked nodes.  When the first run
    does not complete, its status is the status of the whole. *)
Theorem notebook_answers
        (d q : value) (docs : list Document) (idx : Index)
        (nodes new_nodes : list Node) (resp : Response) (fuel : nat) :
  (3 <= fuel)%nat ->
  (truthy d = true ->
   load_data d = Some docs ->
   from_documents docs "text-embedding-3-small" = Some idx ->
   truthy q = true ->
   aretrieve idx 2 q = Some nodes ->
   postprocess_nodes 5 3 "gpt-4o-mini" nodes q = Some new_nodes ->
   asynthesize "gpt-4o-mini" q new_nodes = Some resp ->
   notebook d q fuel = Completed (VResponse resp)) /\
  (truthy d = false -> notebook d q fuel = Failed NoTerminationError) /\
  (truthy d = true -> load_data d = None ->
   notebook d q fuel =
     Failed (StepExecutionError "ingest" (ServiceError "load_data"))).
Proof.
  intros Hfuel. unfold notebook.
  rewrite !run_status_pipeline by done.
  assert (Hd : ev_get {[ "dirname" := d ]} "dirname" = d) by done.
  split; [|split].
  - intros Hdt Hload Hbuild Hqt Hr Hrr Hs.
    unfold pipeline at 1. rewrite Hd, Hdt, Hload, Hbuild.
    rewrite run_status_pipeline by done. unfold pipeline.
    assert (Hq2 : ev_get (<[ "query" := q ]> {[ "index" := VIndex idx ]})
                    "query" = q) by done.
    assert (Hi2 : ev_get (<[ "query" := q ]> {[ "index" := VIndex idx ]})
                    "index" = VIndex idx) by done.
    assert (Hd2 : ev_get (<[ "query" := q ]> {[ "index" := VIndex idx ]})
                    "dirname" = VNone) by done.
    rewrite Hd2, Hq2, Hi2. simpl. by rewrite Hqt, Hr, Hrr, Hs.
  - intros Hdt. unfold pipeline. rewrite Hd, Hdt.
    assert (Hq1 : ev_get {[ "dirname" := d ]} "query" = VNone) by done.
    by rewrite Hq1.
  - intros Hdt Hload. unfold pipeline. by rewrite Hd, Hdt, Hload.
Qed.

(** X12: the events carry the nodes from step to step unchanged.  In
    every run, [rerank] is only ever handed the nodes the retriever
    returned for the payload's index and query, and [synthesize] only
    the nodes the reranker returned for those, in a context that still
    holds the query. *)
Theorem nodes_flow (data : gmap string value) (fuel : nat)
        (inv : invocation) :
  inv ∈ trace (run RAGWorkflow data fuel) ->
  let q := ev_get data "query" in
  (inv_step inv = "rerank" ->
   exists i nodes,
     ev_get data "index" = VIndex i /\
     aretrieve i 2 q = Some nodes /\
     inv_event inv = RetrieverEvent nodes) /\
  (inv_step inv = "synthesize" ->
   exists i nodes new_nodes,
     ev_get data "index" = VIndex i /\
     aretrieve i 2 q = Some nodes /\
     postprocess_nodes 5 3 "gpt-4o-mini" nodes q = Some new_nodes /\
     inv_event inv = RerankEvent new_nodes /\
     store (inv_context inv) !! "query" = Some q).
Proof.
  intros Hin q. subst q.
  assert (Hin3 : inv ∈ trace (run RAGWorkflow data 3)).
  { destruct (decide (fuel <= 3)%nat) as [Hle|Hgt].
    - destruct (drive_trace_prefix_le RAGWorkflow fuel 3 new_context
                  [StartEvent data] Hle) as [k Hk].
      unfold run. rewrite Hk. apply elem_of_app. by left.
    - by rewrite <- (run_three_rounds data fuel) by lia. }
  clear Hin. revert Hin3. run_cases data.
  all: rewrite ?store_get_set_eq, ?Hrerank, ?Hsynth; simpl.
  all: rewrite ?elem_of_cons, elem_of_nil.
  all: intros Hin; repeat (destruct Hin as [->|Hin]); try done; simpl.
  all: split; intros Hname; try discriminate.
  all: eauto 10.
Qed.

End RAGProperties.


(** ** The properties on the concrete services *)

Lemma set_then_get_witness :
  store_get "query" VNone
    (apply_ops [OpSet "index" (VInt 7); OpGet "dirname" VNone]
       (store_set "query" demo_query ∅)) = demo_query.
Proof.
  apply (set_then_get "query" demo_query VNone
           [OpSet "index" (VInt 7); OpGet "dirname" VNone] ∅ new_context).
  repeat constructor; simpl; discriminate.
Defined.

Lemma get_stored_or_default_witness :
  ctx_get "query" VNone (mkContext {[ "query" := demo_query ]} []) =
    (mkContext {[ "query" := demo_query ]} [], Returned demo_query) /\
  ctx_get "index" (VInt 0) (mkContext {[ "query" := demo_query ]} []) =
    (mkContext {[ "query" := demo_query ]} [], Returned (VInt 0)).
Proof.
  split.
  - exact (proj1 (get_stored_or_default "query" VNone
                    (mkContext {[ "query" := demo_query ]} []))).
  - exact (proj1 (get_stored_or_default "index" (VInt 0)
                    (mkContext {[ "query" := demo_query ]} []))).
Defined.

Lemma entry_step_without_field_witness :
  ingest query_payload new_context = (new_context, Returned None) /\
  retrieve ingest_payload new_context = (new_context, Returned None).
Proof.
  split.
  - apply (proj1 (entry_step_without_field query_payload new_context)).
    vm_compute. exact I.
  - apply (proj2 (entry_step_without_field ingest_payload new_context)).
    vm_compute. exact I.
Defined.

Lemma no_entry_field_no_termination_witness :
  status (run RAGWorkflow no_field_payload 1) = Failed NoTerminationError.
Proof.
  apply (no_entry_field_no_termination no_field_payload 1);
    [reflexivity | reflexivity | lia].
Defined.

Lemma stop_ends_run_witness :
  status (run RAGWorkflow both_payload 3) = Completed (VIndex demo_index) /\
  map inv_step (trace (run RAGWorkflow both_payload 3)) =
    ["ingest"; "retrieve"].
Proof.
  split; [|reflexivity].
  apply (proj2 stop_ends_run both_payload 3%nat 0%nat
           (demo_ingest_invocation both_payload) (VIndex demo_index));
    reflexivity.
Defined.

Lemma steps_respect_annotations_witness :
  Forall (invocation_conforms RAGWorkflow)
         (trace (run RAGWorkflow query_payload 3)).
Proof.
  apply steps_respect_annotations.
Defined.

Lemma entry_points_self_select_witness :
  status (run RAGWorkflow ingest_payload 2) = Completed (VIndex demo_index) /\
  final_context (run RAGWorkflow ingest_payload 2) = new_context /\
  ingest query_payload new_context = (new_context, Returned None).
Proof.
  pose proof (entry_points_self_select ingest_payload query_payload
                (VStr "data") demo_query demo_index demo_index demo_index
                demo_nodes 2) as Hthm.
  do 10 (specialize (Hthm eq_refl)).
  assert (Hfuel : (2 <= 2)%nat) by lia.
  destruct (Hthm Hfuel) as [(Hrun & _ & Hctx & _) [Hskip _]].
  split; [exact Hrun | split; [exact Hctx | exact Hskip]].
Defined.

Lemma query_run_answers_witness :
  status (run RAGWorkflow query_payload 3) =
    Completed (VResponse demo_response).
Proof.
  pose proof (proj2 query_run_answers query_payload demo_query demo_index
                demo_nodes demo_nodes demo_response 3%nat) as Hthm.
  do 3 (specialize (Hthm eq_refl)).
  assert (Hdir : missing_or_falsy query_payload "dirname")
    by (vm_compute; exact I).
  specialize (Hthm Hdir).
  do 3 (specialize (Hthm eq_refl)).
  assert (Hfuel : (3 <= 3)%nat) by lia.
  exact (proj2 (Hthm Hfuel)).
Defined.

Lemma query_without_index_witness :
  retrieve {[ "query" := demo_query ]} new_context =
    (after_retrieve new_context demo_query [PrintIndexEmpty], Returned None).
Proof.
  apply (query_without_index {[ "query" := demo_query ]} demo_query
           new_context); reflexivity.
Defined.

Lemma ingest_returns_built_index_witness :
  status (run RAGWorkflow ingest_payload 1) = Completed (VIndex demo_index) /\
  status (run RAGWorkflow ingest_payload 1) <> Failed NoTerminationError.
Proof.
  apply (ingest_returns_built_index ingest_payload (VStr "data") demo_index
           demo_index new_context 1);
    [reflexivity.. | lia].
Defined.

Lemma steps_write_only_query_witness :
  store (body retrieve_step (StartEvent query_payload) new_context).1
    !! "index" = None.
Proof.
  assert (Hin : retrieve_step ∈ RAGWorkflow) by (right; left).
  exact (proj1 (steps_write_only_query retrieve_step
                  (StartEvent query_payload) new_context Hin)
               "index" ltac:(discriminate)).
Defined.

Lemma retrieve_effects_precede_failure_witness :
  store (retrieve {[ "query" := demo_query ]} new_context).1 =
    store_set "query" demo_query ∅.
Proof.
  exact (proj1 (retrieve_effects_precede_failure {[ "query" := demo_query ]}
                  new_context eq_refl)).
Defined.

Lemma other_fields_ignored_witness :
  status (run RAGWorkflow query_payload 3) =
    status (run RAGWorkflow query_payload_top_k 3).
Proof.
  assert (Hsame : same_fields query_payload query_payload_top_k)
    by (repeat split; reflexivity).
  exact (proj1 (proj2 (proj2 (other_fields_ignored query_payload
                                query_payload_top_k Hsame)) 3%nat)).
Defined.

Lemma run_is_pipeline_witness :
  status (run RAGWorkflow query_payload 3) = pipeline query_payload.
Proof.
  assert (Hfuel : (3 <= 3)%nat) by lia.
  exact (proj2 (run_is_pipeline query_payload 3 Hfuel)).
Defined.

Lemma final_store_witness :
  store (final_context (run RAGWorkflow both_payload 3)) =
    {[ "query" := demo_query ]}.
Proof.
  apply (final_store both_payload 3). lia.
Defined.

Lemma run_output_witness :
  stdout (final_context (run RAGWorkflow query_payload 3)) =
    [PrintQueryDb demo_query; PrintRetrieved 2; PrintValue demo_query;
     PrintReranked 2] /\
  stdout (final_context (run RAGWorkflow both_payload 3)) =
    [PrintQueryDb demo_query; PrintRetrieved 2].
Proof.
  assert (Hfuel : (3 <= 3)%nat) by lia.
  split.
  - exact (proj1 (proj2 (proj2 (run_output query_payload 3 Hfuel)))
             demo_index demo_nodes demo_nodes demo_response
             eq_refl eq_refl eq_refl eq_refl eq_refl eq_refl).
  - exact (proj2 (proj2 (proj2 (run_output both_payload 3 Hfuel)))
             demo_index demo_nodes eq_refl eq_refl eq_refl eq_refl).
Defined.

Lemma result_kind_witness :
  (truthy (ev_get ingest_payload "dirname") = true /\
   exists idx, VIndex demo_index = VIndex idx) \/
  (truthy (ev_get ingest_payload "dirname") = false /\
   truthy (ev_get ingest_payload "query") = true /\
   exists r, VIndex demo_index = VResponse r).
Proof.
  apply (result_kind ingest_payload 1 (VIndex demo_index)). reflexivity.
Defined.

Lemma both_entry_points_fire_witness :
  (retrieve both_payload new_context).2 =
    Returned (Some (RetrieverEvent demo_nodes)) /\
  status (run RAGWorkflow both_payload 1) = Completed (VIndex demo_index) /\
  map inv_step (trace (run RAGWorkflow both_payload 1)) =
    ["ingest"; "retrieve"].
Proof.
  pose proof (both_entry_points_fire both_payload demo_index demo_index
                demo_index demo_nodes new_context 1) as Hthm.
  do 6 (specialize (Hthm eq_refl)).
  assert (Hfuel : (1 <= 1)%nat) by lia.
  destruct (Hthm Hfuel) as (_ & Hret & Hrun & Hnames & _).
  split; [exact Hret | split; [exact Hrun | exact Hnames]].
Defined.

Lemma notebook_answers_witness :
  notebook (VStr "data") demo_query 3 = Completed (VResponse demo_response).
Proof.
  assert (Hfuel : (3 <= 3)%nat) by lia.
  exact (proj1 (notebook_answers (VStr "data") demo_query demo_index
                  demo_index demo_nodes demo_nodes demo_response 3 Hfuel)
           eq_refl eq_refl eq_refl eq_refl eq_refl eq_refl eq_refl).
Defined.

Lemma nodes_flow_witness :
  exists i nodes,
    ev_get query_payload "index" = VIndex i /\
    aretrieve i 2 (ev_get query_payload "query") = Some nodes /\
    inv_event demo_rerank_invocation = RetrieverEvent nodes.
Proof.
  assert (Hin : demo_rerank_invocation ∈ trace (run RAGWorkflow query_payload 3))
    by (vm_compute; do 2 right; left).
  exact (proj1 (nodes_flow query_payload 3 demo_rerank_invocation Hin)
           eq_refl).
Defined.

(** ** Counterexamples *)

(** C1, as worded: a run on a [dirname] payload does not invoke [ingest]
    only, [retrieve] is handed the Start event as well; and with an empty
    directory name no index is built and the run does not stop. *)
Lemma entry_points_self_select_counterexample :
  map inv_step (trace (run RAGWorkflow ingest_payload 1)) =
    ["ingest"; "retrieve"] /\
  ~ invokes_only "ingest" (run RAGWorkflow ingest_payload 1) /\
  status (run RAGWorkflow empty_dirname_payload 3) =
    Failed NoTerminationError.
Proof.
  split; [reflexivity|]. split; [|reflexivity].
  unfold invokes_only. intros Hall.
  apply Forall_cons in Hall as [_ Hall].
  apply Forall_cons in Hall as [Hname _].
  vm_compute in Hname. discriminate.
Qed.

(** C2, as worded: a run with a query and an index that is not [None]
    need not stop with a response.  The index may be no index object,
    the query may be empty, the payload may ask for ingestion as well,
    and the synthesizer may answer with an empty response. *)
Lemma query_run_answers_counterexample :
  status (run RAGWorkflow untyped_index_payload 3) =
    Failed (StepExecutionError "retrieve" (AttributeError "as_retriever")) /\
  status (run RAGWorkflow empty_query_payload 3) =
    Failed NoTerminationError /\
  status (run RAGWorkflow both_payload 3) = Completed (VIndex demo_index) /\
  status (run (@RAGWorkflow demo_objects quiet_services) query_payload 3) =
    Completed (VResponse empty_response).
Proof. repeat split; reflexivity. Qed.
